(** * WhisperProcess.py: the transcription worker's stdio protocol

    A shallow embedding of [iped-app/resources/scripts/tasks/WhisperProcess.py].
    The script loads a speech-recognition model once, then answers one request
    per input line on a line-framed channel.  The libraries it calls
    (whisperx, GPUtil, numpy) are not part of the script; they are the fields
    of a [World].  Everything the script itself does (the device choice, the
    fallback, the dispatch on the input line, the aggregation over segments,
    the clean-up of line breaks, the framing of the answers) is a definition
    below, and a run is a trace of [event]s together with its outcome. *)

From Stdlib Require Import String Ascii List ZArith QArith Lia Bool DecimalString.
Import ListNotations.
Local Close Scope Q_scope.
Local Open Scope string_scope.
Local Open Scope list_scope.

(** ** Module-level constants (lines 6-10) *)

Definition terminate : string := "terminate_process".
Definition model_loaded : string := "model_loaded".
Definition library_loaded : string := "library_loaded".
Definition finished : string := "transcription_finished".
Definition ping : string := "ping".

(** ** The pieces of Python the script relies on *)

(** Exceptions, as far as the script can tell them apart: [input()] raises
    [EOFError] at the end of the input, a subscript on a dict without the key
    raises [KeyError], and whatever a library raises is known by its [repr].
    All of them are instances of [Exception], which is what the two [except]
    clauses of the script catch. *)
Inductive exn : Type :=
| EOFError
| KeyError (key : string)
| Error (description : string).

(** [repr(e)] *)
Definition repr (e : exn) : string :=
  match e with
  | EOFError => "EOFError('EOF when reading a line')"
  | KeyError key => ("KeyError('" ++ key ++ "')")%string
  | Error description => description
  end.

Definition LF : ascii := Ascii.ascii_of_nat 10.
Definition CR : ascii := Ascii.ascii_of_nat 13.
Definition SP : ascii := Ascii.ascii_of_nat 32.

(** Strings are sequences of bytes (UTF-8); the newline and the carriage
    return are one byte each, and no other character contains these bytes.

    [s.replace(old, new)] for one-character [old] and [new], the only way the
    script calls it: every occurrence of [old] becomes [new]. *)
Fixpoint replace (old new : ascii) (s : string) : string :=
  match s with
  | EmptyString => EmptyString
  | String c s' =>
      String (if Ascii.eqb c old then new else c) (replace old new s')
  end.

(** [str(n)] of a Python int. *)
Definition str_int (n : Z) : string := NilZero.string_of_int (Z.to_int n).
Arguments str_int : simpl never.

(** What a call returns: it raises or it yields a value. *)
Definition outcome (A : Type) : Type := (exn + A)%type.

(** ** The libraries *)

(** A segment of [result['segments']]: a dict in which the script reads the
    key ['text'] unconditionally and the key ['avg_logprob'] only when it is
    there.  [None] is an absent key. *)
Record segment (F : Type) : Type := {
  text : option string;
  avg_logprob : option F
}.
Arguments text {F} _.
Arguments avg_logprob {F} _.

(** The dict [model.transcribe] returns; [None] is an absent ['segments']. *)
Record result (F : Type) : Type := {
  segments : option (list (segment F))
}.
Arguments segments {F} _.

(** whisperx, GPUtil and numpy as the script sees them.
    [import_whisperx] is line 24, which may raise; [getGPUs] is lines 28-29,
    [len(GPUtil.getGPUs())], which may raise as well; [load_model],
    [load_audio] and [transcribe] are the three calls into whisperx, with the
    arguments in the order the script writes them.  [Float] is numpy's
    float64, with [np_exp] and [np_mean] for [numpy.exp] (applied to each
    element of a list) and [numpy.mean], and [np_str] for [str] of the
    mean. *)
Record World : Type := {
  Model : Type;
  Audio : Type;
  Float : Type;
  import_whisperx : outcome unit;
  getGPUs : outcome nat;
  load_model :
    string -> string -> Z -> Z -> string -> option string -> outcome Model;
  load_audio : string -> outcome Audio;
  transcribe : Model -> Audio -> Z -> option string -> outcome (result Float);
  np_exp : Float -> Float;
  np_mean : list Float -> Float;
  np_str : Float -> string
}.

(** The command line, after [int(...)] of the numeric arguments
    (lines 14-19). *)
Record argv : Type := {
  modelName : string;
  deviceNum : Z;
  threads : Z;
  language : string;
  compute_type : string;
  batch_size : Z
}.

(** Lines 21-22: the language given on the command line, [None] when it is
    the word [detect]. *)
Definition detect (l : string) : option string :=
  if String.eqb l "detect" then None else Some l.

(** Lines 47-48: [float16] is not supported on the CPU. *)
Definition cpu_precision (precision : string) : string :=
  if String.eqb precision "float16" then "float32" else precision.

Arguments detect : simpl never.
Arguments cpu_precision : simpl never.

(** ** What a run does, in order *)

Inductive event : Type :=
| Stdout (line : string)
| Stderr (line : string)
| Input (line : option string)
| LoadModel (name device : string) (device_index nthreads : Z)
            (precision : string) (lang : option string)
| LoadAudio (file : string)
| Transcribe (batch : Z) (lang : option string).

Definition stdout_of (tr : list event) : list string :=
  flat_map (fun ev => match ev with Stdout l => [l] | _ => [] end) tr.

Definition loads_of (tr : list event) : list event :=
  filter (fun ev => match ev with LoadModel _ _ _ _ _ _ => true | _ => false end)
         tr.

Definition inputs_of (tr : list event) : list (option string) :=
  flat_map (fun ev => match ev with Input l => [l] | _ => [] end) tr.

Section Worker.

Context (W : World).

(** The two locals of [main] that live across iterations of the request
    loop. *)
Record locals : Type := {
  transcription : string;
  logprobs : list (Float W)
}.

(** [finalScore] is the int [0] or a float64. *)
Inductive score : Type :=
| ScoreInt (n : Z)
| ScoreFloat (x : Float W).

Definition str_score (s : score) : string :=
  match s with
  | ScoreInt n => str_int n
  | ScoreFloat x => np_str W x
  end.

(** *** A monad for the body of [main]: events, locals, exceptions *)

Definition Py (A : Type) : Type :=
  locals -> list event * locals * outcome A.

Definition ret {A : Type} (a : A) : Py A :=
  fun st => ([], st, inr a).

Definition raise {A : Type} (e : exn) : Py A :=
  fun st => ([], st, inl e).

Definition bind {A B : Type} (m : Py A) (k : A -> Py B) : Py B :=
  fun st =>
    match m st with
    | (tr, st', inl e) => (tr, st', inl e)
    | (tr, st', inr a) =>
        match k a st' with
        | (tr', st'', r) => (tr ++ tr', st'', r)
        end
    end.

Notation "x <- m ;; k" := (bind m (fun x => k))
  (at level 61, m at next level, right associativity).
Notation "m ;; k" := (bind m (fun _ => k))
  (at level 61, right associativity).

Definition emit (ev : event) : Py unit :=
  fun st => ([ev], st, inr tt).

(** What a library hands back, as a computation: its value, or its exception
    raised here. *)
Definition lift {A : Type} (r : outcome A) : Py A :=
  match r with
  | inl e => raise e
  | inr a => ret a
  end.

(** [print(s, file=stdout, flush=True)], [stdout] being the real standard
    output saved at line 3. *)
Definition print (s : string) : Py unit := emit (Stdout s).

(** [print(s, file=sys.stderr)] *)
Definition eprint (s : string) : Py unit := emit (Stderr s).

(** A call into a library: the call is recorded, then it returns or raises. *)
Definition call {A : Type} (ev : event) (r : outcome A) : Py A :=
  emit ev ;; lift r.

(** [try: m except Exception as e: ...], seen from the code after it: the
    exception is handed over as a value, the locals stay as [m] left them. *)
Definition attempt {A : Type} (m : Py A) : Py (outcome A) :=
  fun st => match m st with (tr, st', r) => (tr, st', inr r) end.

Definition get : Py locals := fun st => ([], st, inr st).
Definition put (st : locals) : Py unit := fun _ => ([], st, inr tt).

Definition set_transcription (s : string) : Py unit :=
  st <- get ;; put {| transcription := s; logprobs := logprobs st |}.

Definition set_logprobs (l : list (Float W)) : Py unit :=
  st <- get ;; put {| transcription := transcription st; logprobs := l |}.

(** [d[key]] *)
Definition subscript {A : Type} (key : string) (v : option A) : Py A :=
  match v with
  | Some a => ret a
  | None => raise (KeyError key)
  end.

(** *** Lines 71-74: the loop over the segments *)

Definition segment_body (seg : segment (Float W)) : Py unit :=
  t <- subscript "text" (text seg) ;;
  st <- get ;;
  set_transcription (transcription st ++ t)%string ;;
  match avg_logprob seg with
  | Some p => st <- get ;; set_logprobs (logprobs st ++ [p])
  | None => ret tt
  end.

Fixpoint for_segments (segs : list (segment (Float W))) : Py unit :=
  match segs with
  | [] => ret tt
  | seg :: segs' => segment_body seg ;; for_segments segs'
  end.

(** *** Lines 66-90: one transcription request *)

Definition sanitize (s : string) : string :=
  replace CR SP (replace LF SP s).

Definition final_score (lps : list (Float W)) : score :=
  if Nat.eqb (length lps) 0 then ScoreInt 0
  else ScoreFloat (np_mean W (map (np_exp W) lps)).

(** Lines 69-74, the body of the [try]. *)
Definition try_body (a : argv) (lang : option string) (model : Model W)
    (line : string) : Py unit :=
  audio <- call (LoadAudio line) (load_audio W line) ;;
  res <- call (Transcribe (batch_size a) lang)
              (transcribe W model audio (batch_size a) lang) ;;
  segs <- subscript "segments" (segments res) ;;
  for_segments segs.

Definition request (a : argv) (lang : option string) (model : Model W)
    (line : string) : Py unit :=
  set_transcription "" ;;
  set_logprobs [] ;;
  r <- attempt (try_body a lang model line) ;;
  match r with
  | inl e =>
      let msg := sanitize (repr e) in
      print msg
  | inr _ =>
      st <- get ;;
      let txt := sanitize (transcription st) in
      let finalScore := final_score (logprobs st) in
      print finished ;;
      print (str_score finalScore) ;;
      print txt
  end.

(** *** Lines 56-91: the request loop

    [stdin] is what is left of the input, one element per line; [input()]
    takes the first and raises [EOFError] when there is none. *)
Fixpoint loop (a : argv) (lang : option string) (model : Model W)
    (stdin : list string) : Py unit :=
  match stdin with
  | [] => emit (Input None) ;; raise EOFError
  | line :: rest =>
      emit (Input (Some line)) ;;
      if String.eqb line terminate then ret tt
      else if String.eqb line ping then
        print ping ;; loop a lang model rest
      else
        request a lang model line ;; loop a lang model rest
  end.

(** *** Lines 21-54: start-up

    [main] up to the request loop.  The assignments to [deviceId],
    [deviceNum] and [compute_type] are bindings here; [devNum] is the value
    of [deviceNum] after lines 33-37, and nothing assigns it again. *)

Definition startup (a : argv) : Py (option string * Model W) :=
  let lang := detect (language a) in
  lift (import_whisperx W) ;;
  print library_loaded ;;
  cudaCount <- lift (getGPUs W) ;;
  print (str_int (Z.of_nat cudaCount)) ;;
  let '(deviceId, devNum) :=
    if Nat.ltb 0 cudaCount then ("cuda", deviceNum a) else ("cpu", 0%Z) in
  r <- attempt
         (call (LoadModel (modelName a) deviceId devNum (threads a)
                          (compute_type a) lang)
               (load_model W (modelName a) deviceId devNum (threads a)
                           (compute_type a) lang)) ;;
  dm <- match r with
        | inr model => ret (deviceId, model)
        | inl e =>
            if negb (String.eqb deviceId "cpu") then
              eprint "FAILED to load model on GPU, fallbacking to CPU!" ;;
              let deviceId' := "cpu" in
              let precision := cpu_precision (compute_type a) in
              model <- call (LoadModel (modelName a) deviceId' devNum
                                       (threads a) precision lang)
                            (load_model W (modelName a) deviceId' devNum
                                        (threads a) precision lang) ;;
              ret (deviceId', model)
            else raise e
        end ;;
  print model_loaded ;;
  print (fst dm) ;;
  ret (lang, snd dm).

Definition main (a : argv) (stdin : list string) : Py unit :=
  lm <- startup a ;;
  loop a (fst lm) (snd lm) stdin.

(** Before the first request [transcription] and [logprobs] are not bound;
    the frame starts with placeholders for them. *)
Definition fresh : locals := {| transcription := ""; logprobs := [] |}.

(** A run of the script: its trace and how [main] ends ([inr tt]: it returns
    and the process exits normally; [inl e]: [e] is not caught and the
    process dies with a traceback). *)
Definition run (a : argv) (stdin : list string) : list event * outcome unit :=
  match main a stdin fresh with
  | (tr, _, r) => (tr, r)
  end.

End Worker.

Arguments transcription {W} _.
Arguments logprobs {W} _.
Arguments ScoreInt {W} _.
Arguments ScoreFloat {W} _.

(** ** Reading a run *)

Section Observations.

Context {W : World}.

Definition trace_of {A : Type} (x : list event * locals W * outcome A)
  : list event := fst (fst x).

Definition locals_of {A : Type} (x : list event * locals W * outcome A)
  : locals W := snd (fst x).

Definition outcome_of {A : Type} (x : list event * locals W * outcome A)
  : outcome A := snd x.

(** [after tr x]: the events [tr] happen, then [x] does. *)
Definition after {A : Type} (tr : list event)
    (x : list event * locals W * outcome A)
  : list event * locals W * outcome A :=
  match x with
  | (tr', st, r) => (tr ++ tr', st, r)
  end.

(** The texts of the segments, joined in order, and the log-probabilities
    that are there, in order. *)
Definition texts_of (segs : list (segment (Float W))) : string :=
  fold_right
    (fun seg acc =>
       match text seg with
       | Some t => String.append t acc
       | None => acc
       end)
    EmptyString segs.

Definition logprobs_of (segs : list (segment (Float W))) : list (Float W) :=
  flat_map
    (fun seg => match avg_logprob seg with Some p => [p] | None => [] end)
    segs.

Definition has_text (seg : segment (Float W)) : bool :=
  match text seg with Some _ => true | None => false end.

Definition has_logprob (seg : segment (Float W)) : bool :=
  match avg_logprob seg with Some _ => true | None => false end.

(** Lines 26-31: what start-up writes before it loads the model. *)
Definition announced (n : nat) : list event :=
  [Stdout library_loaded; Stdout (str_int (Z.of_nat n))].

(** The lines the loop reads and answers: those before the first
    [terminate]. *)
Fixpoint served (stdin : list string) : list string :=
  match stdin with
  | [] => []
  | line :: rest =>
      if String.eqb line terminate then [] else line :: served rest
  end.

(** The answer to one line, computed from that line alone, in a frame that
    no earlier request has touched. *)
Definition response (a : argv) (lang : option string) (model : Model W)
    (line : string) : list string :=
  if String.eqb line ping then [ping]
  else stdout_of (trace_of (request W a lang model line (fresh W))).

End Observations.

(** A payload line holds neither a newline nor a carriage return. *)
Fixpoint one_line (s : string) : bool :=
  match s with
  | EmptyString => true
  | String c s' =>
      negb (Ascii.eqb c LF) && negb (Ascii.eqb c CR) && one_line s'
  end.

(** ** A world to run the script in

    [demo gpus]: [gpus] accelerators are reported, every load on one of them
    fails, loads on the CPU succeed.  Floats are rationals, with the first
    terms of the exponential series for [np_exp]. *)

Definition demo_segments (file : string) : option (list (segment Q)) :=
  if String.eqb file "speech.wav" then
    Some [ {| text := Some " hello"; avg_logprob := Some (-1 # 10)%Q |};
           {| text := Some (String LF "world"); avg_logprob := None |};
           {| text := Some "!"; avg_logprob := Some (-3 # 10)%Q |} ]
  else if String.eqb file "music.wav" then
    Some [ {| text := Some " la la"; avg_logprob := None |} ]
  else if String.eqb file "broken.wav" then
    Some [ {| text := Some "partial"; avg_logprob := Some (-1 # 2)%Q |};
           {| text := None; avg_logprob := None |} ]
  else if String.eqb file "odd.wav" then None
  else Some [].

Definition demo_cuda_error : exn :=
  Error "RuntimeError('CUDA out of memory')".

Definition demo_audio_error : exn :=
  Error (String.append "RuntimeError('Failed to load audio:"
                       (String LF "missing.wav')")).

Definition demo_model_error : exn :=
  Error "IndexError('list index out of range')".

Definition demo (gpus : nat) : World := {|
  Model := string;
  Audio := string;
  Float := Q;
  import_whisperx := inr tt;
  getGPUs := inr gpus;
  load_model := fun name device _ _ _ _ =>
    if String.eqb device "cuda" then inl demo_cuda_error else inr name;
  load_audio := fun file =>
    if String.eqb file "missing.wav" then inl demo_audio_error else inr file;
  transcribe := fun _ audio _ _ =>
    if String.eqb audio "noise.wav" then inl demo_model_error
    else inr {| segments := demo_segments audio |};
  np_exp := fun x => (1 + x + x * x / 2)%Q;
  np_mean := fun l => (fold_right Qplus 0 l / inject_Z (Z.of_nat (length l)))%Q;
  np_str := fun x =>
    String.append (str_int (Qnum (Qred x)))
                  (String.append "/" (str_int (Z.pos (Qden (Qred x)))))
|}.

Definition demo_argv : argv := {|
  modelName := "medium";
  deviceNum := 1;
  threads := 4;
  language := "detect";
  compute_type := "float16";
  batch_size := 16
|}.

(** ** The command line (lines 14-19) and the script as a whole

    [sys.argv[i]] raises [IndexError] past the end of the list, and
    [int(s)], a builtin, is a parameter: it yields an integer or raises.
    The six assignments run in the order of the source, so the first one
    that raises decides the exception. *)

Definition IndexError : exn := Error "IndexError('list index out of range')".

Definition item (l : list string) (i : nat) : outcome string :=
  match nth_error l i with
  | Some s => inr s
  | None => inl IndexError
  end.

Definition and_then {A B : Type} (r : outcome A) (k : A -> outcome B)
  : outcome B :=
  match r with
  | inl e => inl e
  | inr a => k a
  end.

Definition parse_argv (int : string -> outcome Z) (sys_argv : list string)
  : outcome argv :=
  and_then (item sys_argv 1) (fun modelName_ =>
  and_then (and_then (item sys_argv 2) int) (fun deviceNum_ =>
  and_then (and_then (item sys_argv 3) int) (fun threads_ =>
  and_then (item sys_argv 4) (fun language_ =>
  and_then (item sys_argv 5) (fun compute_type_ =>
  and_then (and_then (item sys_argv 6) int) (fun batch_size_ =>
  inr {| modelName := modelName_;
         deviceNum := deviceNum_;
         threads := threads_;
         language := language_;
         compute_type := compute_type_;
         batch_size := batch_size_ |})))))).

(** [main()] from its first line: the command line is read, then the rest
    runs as [run] has it. *)
Definition script (int : string -> outcome Z) (W : World)
    (sys_argv stdin : list string) : list event * outcome unit :=
  match parse_argv int sys_argv with
  | inl e => ([], inl e)
  | inr a => run W a stdin
  end.

(** ** More ways to read a run *)

Definition stderr_of (tr : list event) : list string :=
  flat_map (fun ev => match ev with Stderr l => [l] | _ => [] end) tr.

(** The files handed to [whisperx.load_audio], in order. *)
Definition audio_of (tr : list event) : list string :=
  flat_map (fun ev => match ev with LoadAudio f => [f] | _ => [] end) tr.

(** Line 45. *)
Definition fallback_notice : string :=
  "FAILED to load model on GPU, fallbacking to CPU!".

(** Is [terminate] among the lines of the input? *)
Definition terminated (stdin : list string) : bool :=
  existsb (fun line => String.eqb line terminate) stdin.

(** The lines of the input that are requests for a transcription: those the
    loop serves that are not [ping]. *)
Definition requested (stdin : list string) : list string :=
  filter (fun line => negb (String.eqb line ping)) (served stdin).


(** A string made of decimal digits and minus signs only. *)
Fixpoint numeric (s : string) : bool :=
  match s with
  | EmptyString => true
  | String c s' =>
      (Ascii.eqb c "-"%char ||
       (Nat.leb 48 (nat_of_ascii c) && Nat.leb (nat_of_ascii c) 57))
      && numeric s'
  end.

(** An [int] for [demo]: plain decimal digits. *)
Fixpoint demo_digits (s : string) (acc : Z) : option Z :=
  match s with
  | EmptyString => Some acc
  | String c s' =>
      let n := nat_of_ascii c in
      if Nat.leb 48 n && Nat.leb n 57
      then demo_digits s' (10 * acc + Z.of_nat (n - 48))
      else None
  end.

Definition demo_int (s : string) : outcome Z :=
  match s with
  | EmptyString => inl (Error "ValueError('invalid literal for int()')")
  | _ =>
      match demo_digits s 0 with
      | Some z => inr z
      | None => inl (Error "ValueError('invalid literal for int()')")
      end
  end.

Definition demo_sys_argv : list string :=
  ["WhisperProcess.py"; "medium"; "1"; "4"; "detect"; "float16"; "16"].

(** The ways start-up can go, read off lines 24-54 branch by branch: what
    it has done and how it ends. *)
Inductive starts (W : World) (a : argv) (st : locals W)
  : list event * locals W * outcome (option string * Model W) -> Prop :=
| starts_no_library e :
    import_whisperx W = inl e ->
    starts W a st ([], st, inl e)
| starts_no_count e :
    import_whisperx W = inr tt ->
    getGPUs W = inl e ->
    starts W a st ([Stdout library_loaded], st, inl e)
| starts_cpu m :
    import_whisperx W = inr tt ->
    getGPUs W = inr 0%nat ->
    load_model W (modelName a) "cpu" 0 (threads a) (compute_type a)
               (detect (language a)) = inr m ->
    starts W a st
      (announced 0 ++
       [LoadModel (modelName a) "cpu" 0 (threads a) (compute_type a)
                  (detect (language a));
        Stdout model_loaded; Stdout "cpu"],
       st, inr (detect (language a), m))
| starts_cpu_fails e :
    import_whisperx W = inr tt ->
    getGPUs W = inr 0%nat ->
    load_model W (modelName a) "cpu" 0 (threads a) (compute_type a)
               (detect (language a)) = inl e ->
    starts W a st
      (announced 0 ++
       [LoadModel (modelName a) "cpu" 0 (threads a) (compute_type a)
                  (detect (language a))],
       st, inl e)
| starts_cuda n m :
    import_whisperx W = inr tt ->
    getGPUs W = inr (S n) ->
    load_model W (modelName a) "cuda" (deviceNum a) (threads a)
               (compute_type a) (detect (language a)) = inr m ->
    starts W a st
      (announced (S n) ++
       [LoadModel (modelName a) "cuda" (deviceNum a) (threads a)
                  (compute_type a) (detect (language a));
        Stdout model_loaded; Stdout "cuda"],
       st, inr (detect (language a), m))
| starts_fallback n e m :
    import_whisperx W = inr tt ->
    getGPUs W = inr (S n) ->
    load_model W (modelName a) "cuda" (deviceNum a) (threads a)
               (compute_type a) (detect (language a)) = inl e ->
    load_model W (modelName a) "cpu" (deviceNum a) (threads a)
               (cpu_precision (compute_type a)) (detect (language a))
      = inr m ->
    starts W a st
      (announced (S n) ++
       [LoadModel (modelName a) "cuda" (deviceNum a) (threads a)
                  (compute_type a) (detect (language a));
        Stderr fallback_notice;
        LoadModel (modelName a) "cpu" (deviceNum a) (threads a)
                  (cpu_precision (compute_type a)) (detect (language a));
        Stdout model_loaded; Stdout "cpu"],
       st, inr (detect (language a), m))
| starts_fallback_fails n e e' :
    import_whisperx W = inr tt ->
    getGPUs W = inr (S n) ->
    load_model W (modelName a) "cuda" (deviceNum a) (threads a)
               (compute_type a) (detect (language a)) = inl e ->
    load_model W (modelName a) "cpu" (deviceNum a) (threads a)
               (cpu_precision (compute_type a)) (detect (language a))
      = inl e' ->
    starts W a st
      (announced (S n) ++
       [LoadModel (modelName a) "cuda" (deviceNum a) (threads a)
                  (compute_type a) (detect (language a));
        Stderr fallback_notice;
        LoadModel (modelName a) "cpu" (deviceNum a) (threads a)
                  (cpu_precision (compute_type a)) (detect (language a))],
       st, inl e').

(** A world in which no load works: the accelerator is out of memory and
    the CPU does not know the model. *)
Definition demo_cpu_error : exn :=
  Error "ValueError('Invalid model size')".

Definition unloadable (gpus : nat) : World := {|
  Model := string;
  Audio := string;
  Float := Q;
  import_whisperx := inr tt;
  getGPUs := inr gpus;
  load_model := fun _ device _ _ _ _ =>
    if String.eqb device "cuda" then inl demo_cuda_error
    else inl demo_cpu_error;
  load_audio := fun file => inr file;
  transcribe := fun _ audio _ _ => inr {| segments := demo_segments audio |};
  np_exp := np_exp (demo gpus);
  np_mean := np_mean (demo gpus);
  np_str := np_str (demo gpus)
|}.

(** Unfolds the monad in a goal about start-up. *)
Ltac run_py :=
  unfold startup, main, call, lift, attempt, bind, emit, print, eprint,
    ret, raise; cbn.

(** ** Strings *)

Lemma one_line_append (s t : string) :
  one_line (String.append s t) = one_line s && one_line t.
Proof.
  induction s as [|c s IH]; simpl.
  - reflexivity.
  - rewrite IH. now rewrite andb_assoc.
Qed.

Lemma append_empty_r (s : string) : String.append s EmptyString = s.
Proof.
  induction s as [|c s IH]; cbn; [reflexivity | now rewrite IH].
Qed.

Lemma append_append (s t u : string) :
  String.append (String.append s t) u = String.append s (String.append t u).
Proof.
  induction s as [|c s IH]; cbn; [reflexivity | now rewrite IH].
Qed.

Lemma sanitize_one_line (s : string) : one_line (sanitize s) = true.
Proof.
  unfold sanitize.
  induction s as [|c s IH]; simpl; [reflexivity|].
  rewrite IH, andb_true_r.
  destruct (Ascii.eqb c LF) eqn:E1.
  - reflexivity.
  - destruct (Ascii.eqb c CR) eqn:E2.
    + reflexivity.
    + now rewrite E1, E2.
Qed.

Lemma digits_one_line (d : Decimal.uint) :
  one_line (NilEmpty.string_of_uint d) = true.
Proof.
  induction d; simpl; auto.
Qed.

Lemma str_int_one_line (n : Z) : one_line (str_int n) = true.
Proof.
  unfold str_int, NilZero.string_of_int, NilZero.string_of_uint.
  destruct (Z.to_int n) as [d|d]; destruct d; simpl;
    auto using digits_one_line.
Qed.

(** ** The monad *)

Section WorkerFacts.

Context (W : World).

Lemma bind_after {A B : Type} (m : Py W A) (k : A -> Py W B) st tr st' a :
  m st = (tr, st', inr a) ->
  bind W m k st = after tr (k a st').
Proof.
  intros H. unfold bind, after. rewrite H. reflexivity.
Qed.

Lemma bind_raises {A B : Type} (m : Py W A) (k : A -> Py W B) st tr st' e :
  m st = (tr, st', inl e) ->
  bind W m k st = (tr, st', inl e).
Proof.
  intros H. unfold bind. rewrite H. reflexivity.
Qed.

Lemma after_nil {A : Type} (x : list event * locals W * outcome A) :
  after [] x = x.
Proof. destruct x as [[tr st] r]. reflexivity. Qed.

Lemma trace_after {A : Type} tr (x : list event * locals W * outcome A) :
  trace_of (after tr x) = tr ++ trace_of x.
Proof. destruct x as [[tr' st] r]. reflexivity. Qed.

Lemma stdout_of_app tr1 tr2 :
  stdout_of (tr1 ++ tr2) = stdout_of tr1 ++ stdout_of tr2.
Proof. apply flat_map_app. Qed.

Lemma loads_of_app tr1 tr2 :
  loads_of (tr1 ++ tr2) = loads_of tr1 ++ loads_of tr2.
Proof. apply filter_app. Qed.

(** *** The loop over the segments *)

Lemma segment_body_ok seg t st :
  text seg = Some t ->
  segment_body W seg st =
    ([],
     {| transcription := String.append (transcription st) t;
        logprobs := logprobs st ++
          match avg_logprob seg with Some p => [p] | None => [] end |},
     inr tt).
Proof.
  intros H. unfold segment_body. rewrite H.
  destruct (avg_logprob seg); cbn.
  - reflexivity.
  - now rewrite app_nil_r.
Qed.

Lemma segment_body_no_text seg st :
  text seg = None ->
  segment_body W seg st = ([], st, inl (KeyError "text")).
Proof.
  intros H. unfold segment_body. rewrite H. reflexivity.
Qed.

Lemma for_segments_ok segs : forall st,
  forallb has_text segs = true ->
  for_segments W segs st =
    ([],
     {| transcription := String.append (transcription st) (texts_of segs);
        logprobs := logprobs st ++ logprobs_of segs |},
     inr tt).
Proof.
  induction segs as [|seg segs IH]; intros st H.
  - destruct st as [t l]. cbn. now rewrite app_nil_r, append_empty_r.
  - cbn in H. apply andb_prop in H as [Hseg Hsegs].
    unfold has_text in Hseg.
    destruct (text seg) as [t|] eqn:Et; [|discriminate].
    cbn [for_segments].
    rewrite (bind_after _ _ _ _ _ _ (segment_body_ok _ _ st Et)), after_nil.
    rewrite IH by assumption. cbn [transcription logprobs].
    unfold texts_of, logprobs_of. cbn [fold_right flat_map]. rewrite Et.
    now rewrite <- app_assoc, append_append.
Qed.

(** The loop over the segments emits nothing, and the only thing it can raise
    is the [KeyError] of a segment without ['text']. *)
Lemma for_segments_quiet segs : forall st,
  trace_of (for_segments W segs st) = [] /\
  (outcome_of (for_segments W segs st) = inr tt \/
   outcome_of (for_segments W segs st) = inl (KeyError "text")).
Proof.
  induction segs as [|seg segs IH]; intros st.
  - cbn. auto.
  - cbn [for_segments].
    destruct (text seg) as [t|] eqn:Et.
    + rewrite (bind_after _ _ _ _ _ _ (segment_body_ok _ _ st Et)), after_nil.
      apply IH.
    + rewrite (bind_raises _ _ _ _ _ _ (segment_body_no_text _ st Et)).
      cbn. auto.
Qed.

(** *** One request *)

Section Request.

Variables (a : argv) (lang : option string) (model : Model W).

Lemma try_body_load_fails line e st :
  load_audio W line = inl e ->
  try_body W a lang model line st = ([LoadAudio line], st, inl e).
Proof.
  intros H. unfold try_body, call, bind, emit, lift. rewrite H. reflexivity.
Qed.

Lemma try_body_transcribe_fails line audio e st :
  load_audio W line = inr audio ->
  transcribe W model audio (batch_size a) lang = inl e ->
  try_body W a lang model line st =
    ([LoadAudio line; Transcribe (batch_size a) lang], st, inl e).
Proof.
  intros H1 H2. unfold try_body, call, bind, emit, lift.
  rewrite H1. cbn. rewrite H2. reflexivity.
Qed.

Lemma try_body_segments line audio res segs st :
  load_audio W line = inr audio ->
  transcribe W model audio (batch_size a) lang = inr res ->
  segments res = Some segs ->
  try_body W a lang model line st =
    after [LoadAudio line; Transcribe (batch_size a) lang]
          (for_segments W segs st).
Proof.
  intros H1 H2 H3. unfold try_body, call, bind, emit, lift, subscript, after.
  rewrite H1. cbn. rewrite H2. cbn. rewrite H3. cbn.
  destruct (for_segments W segs st) as [[tr st'] r]. reflexivity.
Qed.

(** The body of the [try] calls [load_audio], and [transcribe] if that
    worked; it does nothing else that leaves a trace. *)
Lemma try_body_trace line st :
  trace_of (try_body W a lang model line st) = [LoadAudio line] \/
  trace_of (try_body W a lang model line st) =
    [LoadAudio line; Transcribe (batch_size a) lang].
Proof.
  destruct (load_audio W line) as [e|audio] eqn:H1.
  - left. now rewrite (try_body_load_fails _ _ _ H1).
  - right.
    destruct (transcribe W model audio (batch_size a) lang) as [e|res] eqn:H2.
    + now rewrite (try_body_transcribe_fails _ _ _ _ H1 H2).
    + destruct (segments res) as [segs|] eqn:H3.
      * rewrite (try_body_segments _ _ _ _ _ H1 H2 H3), trace_after.
        now rewrite (proj1 (for_segments_quiet segs st)).
      * unfold try_body, call, bind, emit, lift, subscript.
        rewrite H1. cbn. rewrite H2. cbn. rewrite H3. reflexivity.
Qed.

(** The body of the [try] writes nothing to the protocol channel. *)
Lemma try_body_quiet line st :
  stdout_of (trace_of (try_body W a lang model line st)) = [].
Proof.
  destruct (try_body_trace line st) as [-> | ->]; reflexivity.
Qed.

(** What a request does, whatever the locals were before it: the body of the
    [try] runs on an empty [transcription] and an empty [logprobs], and its
    result picks the one-line or the three-line answer. *)
Lemma request_unfold line st :
  request W a lang model line st =
    match try_body W a lang model line
                   {| transcription := ""; logprobs := [] |} with
    | (tr, st', inl e) => (tr ++ [Stdout (sanitize (repr e))], st', inr tt)
    | (tr, st', inr _) =>
        (tr ++ [Stdout finished;
                Stdout (str_score W (final_score W (logprobs st')));
                Stdout (sanitize (transcription st'))],
         st', inr tt)
    end.
Proof.
  unfold request, set_transcription, set_logprobs, attempt, bind, get, put,
    print, emit.
  cbn.
  destruct (try_body W a lang model line _) as [[tr st'] [e|u]]; reflexivity.
Qed.

Lemma request_returns line st :
  outcome_of (request W a lang model line st) = inr tt.
Proof.
  rewrite request_unfold.
  destruct (try_body W a lang model line _) as [[tr st'] [e|u]]; reflexivity.
Qed.

Lemma request_frame line st1 st2 :
  request W a lang model line st1 = request W a lang model line st2.
Proof. now rewrite !request_unfold. Qed.

(** A request whose [try] raises [e] answers with the one line. *)
Lemma request_raised line e tr st0 st :
  try_body W a lang model line {| transcription := ""; logprobs := [] |}
    = (tr, st0, inl e) ->
  request W a lang model line st =
    (tr ++ [Stdout (sanitize (repr e))], st0, inr tt).
Proof. intros H. now rewrite request_unfold, H. Qed.

End Request.

(** *** The request loop *)

Section Loop.

Variables (a : argv) (lang : option string) (model : Model W).

Lemma loop_eof st :
  loop W a lang model [] st = ([Input None], st, inl EOFError).
Proof. reflexivity. Qed.

Lemma loop_terminate rest st :
  loop W a lang model (terminate :: rest) st =
    ([Input (Some terminate)], st, inr tt).
Proof. reflexivity. Qed.

Lemma loop_ping rest st :
  loop W a lang model (ping :: rest) st =
    after [Input (Some ping); Stdout ping] (loop W a lang model rest st).
Proof.
  cbn [loop]. unfold bind, emit, print, after. cbn.
  destruct (loop W a lang model rest st) as [[tr st'] r]. reflexivity.
Qed.

Lemma loop_request line rest st :
  line <> terminate ->
  line <> ping ->
  loop W a lang model (line :: rest) st =
    after (Input (Some line) :: trace_of (request W a lang model line st))
          (loop W a lang model rest
                (locals_of (request W a lang model line st))).
Proof.
  intros Ht Hp. apply String.eqb_neq in Ht, Hp.
  cbn [loop]. unfold bind at 1. unfold emit.
  rewrite Ht, Hp.
  pose proof (request_returns a lang model line st) as Hr.
  destruct (request W a lang model line st) as [[tr st'] r] eqn:E.
  cbn in Hr. subst r.
  rewrite (bind_after _ _ _ _ _ _ E). unfold after, trace_of, locals_of. cbn.
  destruct (loop W a lang model rest st') as [[tr' st''] r]. reflexivity.
Qed.

(** The protocol output of the loop is the answers to the lines it serves,
    one after the other, each a function of its own line. *)
Lemma loop_stdout stdin : forall st,
  stdout_of (trace_of (loop W a lang model stdin st)) =
    flat_map (response a lang model) (served stdin).
Proof.
  induction stdin as [|line rest IH]; intros st.
  - reflexivity.
  - cbn [served]. destruct (String.eqb line terminate) eqn:Ht.
    + apply String.eqb_eq in Ht. subst line. reflexivity.
    + cbn [flat_map]. unfold response at 1.
      destruct (String.eqb line ping) eqn:Hp.
      * apply String.eqb_eq in Hp. subst line.
        rewrite loop_ping, trace_after. cbn. now rewrite IH.
      * apply String.eqb_neq in Ht, Hp.
        rewrite (loop_request _ _ _ Ht Hp), trace_after.
        change (Input (Some line) :: ?t) with ([Input (Some line)] ++ t).
        rewrite !stdout_of_app, IH. cbn [stdout_of flat_map app].
        now rewrite (request_frame a lang model line st (fresh W)).
Qed.

End Loop.

(** *** Start-up *)

Section Startup.

Variable a : argv.

Lemma startup_import_fails st e :
  import_whisperx W = inl e ->
  startup W a st = ([], st, inl e).
Proof. intros Hi. run_py. now rewrite Hi. Qed.

Lemma startup_getGPUs_fails st e :
  import_whisperx W = inr tt ->
  getGPUs W = inl e ->
  startup W a st = ([Stdout library_loaded], st, inl e).
Proof. intros Hi Hg. run_py. now rewrite Hi, Hg. Qed.

(** No accelerator: one load, on the CPU. *)
Lemma startup_cpu st :
  import_whisperx W = inr tt ->
  getGPUs W = inr 0 ->
  startup W a st =
    match load_model W (modelName a) "cpu" 0 (threads a) (compute_type a) (detect (language a))
    with
    | inl e =>
        (announced 0 ++
         [LoadModel (modelName a) "cpu" 0 (threads a) (compute_type a) (detect (language a))],
         st, inl e)
    | inr m =>
        (announced 0 ++
         [LoadModel (modelName a) "cpu" 0 (threads a) (compute_type a) (detect (language a));
          Stdout model_loaded; Stdout "cpu"],
         st, inr ((detect (language a)), m))
    end.
Proof.
  intros Hi Hg. run_py. rewrite Hi, Hg. cbn.
  destruct (load_model W _ _ _ _ _ _); reflexivity.
Qed.

(** Accelerators, and the load on one of them works. *)
Lemma startup_cuda st n m :
  import_whisperx W = inr tt ->
  getGPUs W = inr (S n) ->
  load_model W (modelName a) "cuda" (deviceNum a) (threads a)
             (compute_type a) (detect (language a)) = inr m ->
  startup W a st =
    (announced (S n) ++
     [LoadModel (modelName a) "cuda" (deviceNum a) (threads a)
                (compute_type a) (detect (language a));
      Stdout model_loaded; Stdout "cuda"],
     st, inr ((detect (language a)), m)).
Proof.
  intros Hi Hg H1. run_py. rewrite Hi, Hg. cbn.
  now rewrite H1.
Qed.

(** Accelerators, and the load on one of them fails: a second load, on the
    CPU, with the device index left as it was. *)
Lemma startup_fallback st n e :
  import_whisperx W = inr tt ->
  getGPUs W = inr (S n) ->
  load_model W (modelName a) "cuda" (deviceNum a) (threads a)
             (compute_type a) (detect (language a)) = inl e ->
  startup W a st =
    match load_model W (modelName a) "cpu" (deviceNum a) (threads a)
                     (cpu_precision (compute_type a)) (detect (language a)) with
    | inl e' =>
        (announced (S n) ++
         [LoadModel (modelName a) "cuda" (deviceNum a) (threads a)
                    (compute_type a) (detect (language a));
          Stderr "FAILED to load model on GPU, fallbacking to CPU!";
          LoadModel (modelName a) "cpu" (deviceNum a) (threads a)
                    (cpu_precision (compute_type a)) (detect (language a))],
         st, inl e')
    | inr m =>
        (announced (S n) ++
         [LoadModel (modelName a) "cuda" (deviceNum a) (threads a)
                    (compute_type a) (detect (language a));
          Stderr "FAILED to load model on GPU, fallbacking to CPU!";
          LoadModel (modelName a) "cpu" (deviceNum a) (threads a)
                    (cpu_precision (compute_type a)) (detect (language a));
          Stdout model_loaded; Stdout "cpu"],
         st, inr ((detect (language a)), m))
    end.
Proof.
  intros Hi Hg H1. run_py. rewrite Hi, Hg. cbn.
  rewrite H1. cbn.
  destruct (load_model W (modelName a) "cpu" _ _ _ _); reflexivity.
Qed.

Lemma main_after_startup stdin st tr st' l m :
  startup W a st = (tr, st', inr (l, m)) ->
  main W a stdin st = after tr (loop W a l m stdin st').
Proof.
  intros H. unfold main. now rewrite (bind_after _ _ _ _ _ _ H).
Qed.

Lemma main_startup_fails stdin st tr st' e :
  startup W a st = (tr, st', inl e) ->
  main W a stdin st = (tr, st', inl e).
Proof.
  intros H. unfold main. now rewrite (bind_raises _ _ _ _ _ _ H).
Qed.

(** Whatever becomes of start-up, what it has written to the protocol
    channel is made of single lines. *)
Lemma startup_lines st :
  Forall (fun l => one_line l = true) (stdout_of (trace_of (startup W a st))).
Proof.
  destruct (import_whisperx W) as [e|[]] eqn:Hi.
  { rewrite (startup_import_fails st e Hi). constructor. }
  destruct (getGPUs W) as [e|n] eqn:Hg.
  { rewrite (startup_getGPUs_fails st e Hi Hg). repeat constructor. }
  destruct n as [|n].
  - rewrite (startup_cpu st Hi Hg).
    destruct (load_model W _ _ _ _ _ _);
      cbn; repeat constructor; apply str_int_one_line.
  - destruct (load_model W (modelName a) "cuda" (deviceNum a) (threads a)
                (compute_type a) (detect (language a))) as [e|m] eqn:H1.
    + rewrite (startup_fallback st n e Hi Hg H1).
      destruct (load_model W (modelName a) "cpu" _ _ _ _);
        cbn; repeat constructor; apply str_int_one_line.
    + rewrite (startup_cuda st n m Hi Hg H1).
      cbn; repeat constructor; apply str_int_one_line.
Qed.

End Startup.

(** *** What the loop never does: load a model *)

Section NoLoad.

Variables (a : argv) (lang : option string) (model : Model W).

Lemma request_loads line st :
  loads_of (trace_of (request W a lang model line st)) = [].
Proof.
  rewrite request_unfold.
  pose proof (try_body_trace a lang model line
                {| transcription := ""; logprobs := [] |}) as Ht.
  destruct (try_body W a lang model line _) as [[tr st'] [e|u]];
    cbn in Ht |- *; rewrite loads_of_app;
    destruct Ht as [-> | ->]; reflexivity.
Qed.

Lemma loop_loads stdin : forall st,
  loads_of (trace_of (loop W a lang model stdin st)) = [].
Proof.
  induction stdin as [|line rest IH]; intros st.
  - reflexivity.
  - destruct (String.eqb_spec line terminate) as [->|Ht]; [reflexivity|].
    destruct (String.eqb_spec line ping) as [->|Hp].
    + rewrite loop_ping, trace_after, loads_of_app, IH. reflexivity.
    + rewrite (loop_request _ _ _ _ _ _ Ht Hp), trace_after.
      change (Input (Some line) :: ?t) with ([Input (Some line)] ++ t).
      rewrite !loads_of_app, IH, request_loads. reflexivity.
Qed.

End NoLoad.

(** *** Every answer is made of single lines *)

Section Lines.

Variables (a : argv) (lang : option string) (model : Model W).

Hypothesis np_str_one_line : forall x, one_line (np_str W x) = true.

Lemma str_score_one_line s : one_line (str_score W s) = true.
Proof.
  destruct s as [n|x]; cbn; auto using str_int_one_line.
Qed.

Lemma request_lines line st :
  Forall (fun l => one_line l = true)
         (stdout_of (trace_of (request W a lang model line st))).
Proof.
  rewrite request_unfold.
  pose proof (try_body_quiet a lang model line
                {| transcription := ""; logprobs := [] |}) as Hq.
  destruct (try_body W a lang model line _) as [[tr st'] [e|u]];
    unfold trace_of in *; cbn [fst] in *; rewrite stdout_of_app, Hq; cbn;
    repeat constructor;
    auto using sanitize_one_line, str_score_one_line.
Qed.

Lemma response_lines line :
  Forall (fun l => one_line l = true) (response a lang model line).
Proof.
  unfold response. destruct (String.eqb line ping).
  - repeat constructor.
  - apply request_lines.
Qed.

Lemma loop_lines stdin st :
  Forall (fun l => one_line l = true)
         (stdout_of (trace_of (loop W a lang model stdin st))).
Proof.
  rewrite loop_stdout.
  induction (served stdin) as [|line rest IH]; cbn.
  - constructor.
  - apply Forall_app. split; [apply response_lines | exact IH].
Qed.

End Lines.

(** ** The request loop: dispatch, end of input, independence of requests *)

(** C6. In the request loop, the line just read decides what happens: on
    [terminate] nothing is written and the loop returns; on [ping] the one
    line [ping] is written and the loop goes on with the input that is left
    and the locals as they were; any other line is handed to the
    transcription request, which always returns (whether the transcription
    worked or raised), and the loop goes on with the input that is left. *)
Theorem dispatch_on_line a lang model line rest st :
  (line = terminate ->
   loop W a lang model (line :: rest) st = ([Input (Some line)], st, inr tt))
  /\
  (line = ping ->
   loop W a lang model (line :: rest) st =
     after [Input (Some line); Stdout ping] (loop W a lang model rest st))
  /\
  (line <> terminate -> line <> ping ->
   exists tr st',
     request W a lang model line st = (tr, st', inr tt) /\
     loop W a lang model (line :: rest) st =
       after (Input (Some line) :: tr) (loop W a lang model rest st')).
Proof.
  repeat split.
  - intros ->. apply loop_terminate.
  - intros ->. apply loop_ping.
  - intros Ht Hp.
    pose proof (request_returns a lang model line st) as Hr.
    pose proof (loop_request a lang model line rest st Ht Hp) as Hl.
    destruct (request W a lang model line st) as [[tr st'] r].
    cbn in Hr. subst r.
    exists tr, st'. split; [reflexivity | exact Hl].
Qed.

(** C2, as the code has it.  In the request loop the end of the input writes
    nothing to the protocol channel and ends the loop, as [terminate] does;
    but it ends it with an [EOFError] that nothing catches, where
    [terminate] makes the loop return. *)
Theorem end_of_input_raises a lang model st :
  loop W a lang model [] st = ([Input None], st, inl EOFError) /\
  stdout_of (trace_of (loop W a lang model [] st)) = [] /\
  forall rest,
    loop W a lang model (terminate :: rest) st =
      ([Input (Some terminate)], st, inr tt) /\
    stdout_of (trace_of (loop W a lang model (terminate :: rest) st)) = [].
Proof.
  repeat split.
Qed.

(** C10. A request starts from an empty [transcription] and an empty
    [logprobs] whatever an earlier request left in them, so what it does
    (events, locals left behind, outcome) is the same from any two frames;
    and the protocol output of a whole session is the answers to the lines
    served, in order, each computed from its own line alone. *)
Theorem answers_depend_on_own_line a lang model :
  (forall line st1 st2,
     request W a lang model line st1 = request W a lang model line st2) /\
  (forall stdin st,
     stdout_of (trace_of (loop W a lang model stdin st)) =
       flat_map (response a lang model) (served stdin)).
Proof.
  split.
  - intros. apply request_frame.
  - intros. apply loop_stdout.
Qed.

(** ** Start-up: device, fallback, frames *)

(** C8. When no accelerator is reported, the model is loaded once, on device
    [cpu] with device index [0], whatever index the command line gave; this
    is the only load of the whole run. *)
Theorem no_accelerator_loads_cpu_0 a stdin :
  import_whisperx W = inr tt ->
  getGPUs W = inr 0%nat ->
  loads_of (fst (run W a stdin)) =
    [LoadModel (modelName a) "cpu" 0 (threads a) (compute_type a)
               (detect (language a))].
Proof.
  intros Hi Hg. unfold run.
  pose proof (startup_cpu a (fresh W) Hi Hg) as Hs.
  destruct (load_model W (modelName a) "cpu" 0 (threads a) (compute_type a)
                       (detect (language a))) as [e|m].
  - rewrite (main_startup_fails _ _ _ _ _ _ Hs). reflexivity.
  - rewrite (main_after_startup _ stdin _ _ _ _ _ Hs).
    pose proof (loop_loads a (detect (language a)) m stdin (fresh W)) as Hl.
    destruct (loop W a (detect (language a)) m stdin (fresh W))
      as [[tr st'] r].
    unfold trace_of in Hl. cbn [fst] in Hl.
    cbn [after fst]. rewrite loads_of_app, Hl. reflexivity.
Qed.

(** C3. When accelerators are reported, the load on the accelerator fails
    and the second load, on the CPU, works: the protocol lines of start-up
    are [library_loaded], the count, [model_loaded], [cpu]; the second load
    asks for the precision [cpu_precision (compute_type a)], which is
    [float32] when [float16] was asked for; and the request loop then runs
    with the model of the second load. *)
Theorem fallback_reports_cpu a st n e m :
  import_whisperx W = inr tt ->
  getGPUs W = inr n ->
  (0 < n)%nat ->
  load_model W (modelName a) "cuda" (deviceNum a) (threads a)
             (compute_type a) (detect (language a)) = inl e ->
  load_model W (modelName a) "cpu" (deviceNum a) (threads a)
             (cpu_precision (compute_type a)) (detect (language a)) = inr m ->
  stdout_of (trace_of (startup W a st)) =
    [library_loaded; str_int (Z.of_nat n); model_loaded; "cpu"] /\
  loads_of (trace_of (startup W a st)) =
    [LoadModel (modelName a) "cuda" (deviceNum a) (threads a)
               (compute_type a) (detect (language a));
     LoadModel (modelName a) "cpu" (deviceNum a) (threads a)
               (cpu_precision (compute_type a)) (detect (language a))] /\
  (compute_type a = "float16" -> cpu_precision (compute_type a) = "float32") /\
  forall stdin,
    main W a stdin st =
      after (trace_of (startup W a st))
            (loop W a (detect (language a)) m stdin st).
Proof.
  intros Hi Hg Hn H1 H2.
  destruct n as [|n]; [lia|].
  pose proof (startup_fallback a st n e Hi Hg H1) as Hs.
  rewrite H2 in Hs.
  repeat split.
  - now rewrite Hs.
  - now rewrite Hs.
  - intros ->. reflexivity.
  - intros stdin. rewrite (main_after_startup _ stdin _ _ _ _ _ Hs).
    now rewrite Hs.
Qed.


(** C7. Every line that a run writes to the protocol channel (start-up
    frames, [ping], error descriptions, [transcription_finished], scores and
    transcriptions) is free of newlines and carriage returns, provided
    [str] of a float64 is. *)
Theorem protocol_lines_have_no_line_break a stdin :
  (forall x, one_line (np_str W x) = true) ->
  Forall (fun l => one_line l = true) (stdout_of (fst (run W a stdin))).
Proof.
  intros Hstr. unfold run.
  pose proof (startup_lines a (fresh W)) as Hs.
  destruct (startup W a (fresh W)) as [[tr st'] [e|[l m]]] eqn:Es;
    unfold trace_of in Hs; cbn [fst] in Hs.
  - now rewrite (main_startup_fails _ _ _ _ _ _ Es).
  - rewrite (main_after_startup _ stdin _ _ _ _ _ Es).
    pose proof (loop_lines a l m Hstr stdin st') as Hl.
    destruct (loop W a l m stdin st') as [[tr' st''] r].
    unfold trace_of in Hl. cbn [fst] in Hl. cbn [after fst].
    rewrite stdout_of_app. apply Forall_app. split; assumption.
Qed.

(** ** One transcription request: score and failure *)

Lemma logprobs_of_nil (segs : list (segment (Float W))) :
  existsb has_logprob segs = false -> logprobs_of segs = [].
Proof.
  induction segs as [|seg segs IH]; cbn; [reflexivity|].
  unfold has_logprob at 1. destruct (avg_logprob seg); [discriminate|].
  cbn. exact IH.
Qed.

Lemma logprobs_of_cons (segs : list (segment (Float W))) :
  existsb has_logprob segs = true -> length (logprobs_of segs) <> 0%nat.
Proof.
  induction segs as [|seg segs IH]; cbn; [discriminate|].
  unfold has_logprob at 1. destruct (avg_logprob seg); cbn.
  - discriminate.
  - exact IH.
Qed.

(** C4. A transcription that succeeds (the audio loads, the model returns
    segments and each has its text) answers with [transcription_finished],
    the score and the cleaned text.  When no segment has a log-probability
    the score is the integer [0], written [0]; otherwise it is
    [numpy.mean] of [numpy.exp] of the log-probabilities collected in order:
    the mean is taken after the exponential. *)
Theorem score_is_mean_of_exponentials a lang model line st audio res segs :
  load_audio W line = inr audio ->
  transcribe W model audio (batch_size a) lang = inr res ->
  segments res = Some segs ->
  forallb has_text segs = true ->
  stdout_of (trace_of (request W a lang model line st)) =
    [finished;
     str_score W (final_score W (logprobs_of segs));
     sanitize (texts_of segs)] /\
  (existsb has_logprob segs = false ->
   final_score W (logprobs_of segs) = ScoreInt 0 /\
   str_score W (final_score W (logprobs_of segs)) = "0") /\
  (existsb has_logprob segs = true ->
   final_score W (logprobs_of segs) =
     ScoreFloat (np_mean W (map (np_exp W) (logprobs_of segs)))).
Proof.
  intros H1 H2 H3 Ht. split; [|split].
  - rewrite request_unfold, (try_body_segments _ _ _ _ _ _ _ _ H1 H2 H3).
    rewrite (for_segments_ok segs _ Ht). reflexivity.
  - intros Hn. rewrite (logprobs_of_nil segs Hn). split; reflexivity.
  - intros He. unfold final_score.
    apply logprobs_of_cons in He. apply Nat.eqb_neq in He. now rewrite He.
Qed.

(** C5. A request whose audio does not load, or whose transcription raises,
    is answered with one protocol line, [repr] of the exception with every
    newline and carriage return turned into a space; nothing is raised out
    of the request, and the loop goes on with the input that is left. *)
Theorem failed_request_answers_one_line a lang model line rest st e :
  line <> terminate ->
  line <> ping ->
  load_audio W line = inl e \/
  (exists audio,
     load_audio W line = inr audio /\
     transcribe W model audio (batch_size a) lang = inl e) ->
  exists tr st',
    request W a lang model line st = (tr, st', inr tt) /\
    stdout_of tr = [sanitize (repr e)] /\
    sanitize (repr e) = replace CR SP (replace LF SP (repr e)) /\
    one_line (sanitize (repr e)) = true /\
    loop W a lang model (line :: rest) st =
      after (Input (Some line) :: tr) (loop W a lang model rest st').
Proof.
  intros Ht Hp Hfail.
  assert (exists tr0 st0,
             try_body W a lang model line
                      {| transcription := ""; logprobs := [] |}
               = (tr0, st0, inl e) /\ stdout_of tr0 = []) as (tr0 & st0 & Hb & Hq).
  { destruct Hfail as [H1 | (audio & H1 & H2)].
    - eexists _, _. split; [apply (try_body_load_fails _ _ _ _ _ _ H1)|].
      reflexivity.
    - eexists _, _.
      split; [apply (try_body_transcribe_fails _ _ _ _ _ _ _ H1 H2)|].
      reflexivity. }
  pose proof (request_raised a lang model line e tr0 st0 st Hb) as Hr.
  pose proof (loop_request a lang model line rest st Ht Hp) as Hl.
  rewrite Hr in Hl. unfold trace_of, locals_of in Hl. cbn [fst snd] in Hl.
  exists (tr0 ++ [Stdout (sanitize (repr e))]), st0.
  repeat split.
  - exact Hr.
  - rewrite stdout_of_app, Hq. reflexivity.
  - apply sanitize_one_line.
  - exact Hl.
Qed.

(** ** Beyond the claims: how a session ends, what it reads, what it calls *)

Lemma outcome_after {A : Type} tr (x : list event * locals W * outcome A) :
  outcome_of (after tr x) = outcome_of x.
Proof. destruct x as [[tr' st] r]. reflexivity. Qed.

Lemma audio_of_app tr1 tr2 :
  audio_of (tr1 ++ tr2) = audio_of tr1 ++ audio_of tr2.
Proof. apply flat_map_app. Qed.

Lemma stderr_of_app tr1 tr2 :
  stderr_of (tr1 ++ tr2) = stderr_of tr1 ++ stderr_of tr2.
Proof. apply flat_map_app. Qed.

Section Session.

Variables (a : argv) (lang : option string) (model : Model W).

(** The loop ends in one of two ways, and the input alone decides which. *)
Lemma loop_outcome stdin : forall st,
  outcome_of (loop W a lang model stdin st) =
    if terminated stdin then inr tt else inl EOFError.
Proof.
  induction stdin as [|line rest IH]; intros st.
  - reflexivity.
  - unfold terminated. cbn [existsb].
    destruct (String.eqb_spec line terminate) as [->|Ht]; [reflexivity|].
    cbn [orb]. destruct (String.eqb_spec line ping) as [->|Hp].
    + rewrite loop_ping, outcome_after. apply IH.
    + rewrite (loop_request _ _ _ _ _ _ Ht Hp), outcome_after. apply IH.
Qed.

(** X2. What comes after [terminate] in the input makes no difference to
    anything the loop does: not to its trace, not to the locals it leaves,
    not to its outcome. *)
Theorem input_after_terminate_is_ignored pre post post' : forall st,
  loop W a lang model (pre ++ terminate :: post) st =
  loop W a lang model (pre ++ terminate :: post') st.
Proof.
  induction pre as [|line pre IH]; intros st.
  - reflexivity.
  - cbn [app].
    destruct (String.eqb_spec line terminate) as [->|Ht]; [reflexivity|].
    destruct (String.eqb_spec line ping) as [->|Hp].
    + now rewrite !loop_ping, IH.
    + now rewrite !(loop_request _ _ _ _ _ _ Ht Hp), IH.
Qed.

Lemma request_audio line st :
  audio_of (trace_of (request W a lang model line st)) = [line].
Proof.
  rewrite request_unfold.
  pose proof (try_body_trace a lang model line
                {| transcription := ""; logprobs := [] |}) as Ht.
  destruct (try_body W a lang model line _) as [[tr st'] [e|u]];
    unfold trace_of in *; cbn [fst] in *; rewrite audio_of_app;
    destruct Ht as [-> | ->]; reflexivity.
Qed.

(** X3. The files handed to [load_audio] during the loop are the lines
    served that are not [ping], each one once, as it was read and in the
    order of the input: an empty line is a request like any other, and a
    file named like a control token can never be asked for. *)
Theorem every_other_line_is_loaded stdin : forall st,
  audio_of (trace_of (loop W a lang model stdin st)) = requested stdin.
Proof.
  induction stdin as [|line rest IH]; intros st.
  - reflexivity.
  - unfold requested. cbn [served].
    destruct (String.eqb_spec line terminate) as [->|Ht]; [reflexivity|].
    cbn [filter].
    destruct (String.eqb_spec line ping) as [->|Hp]; cbn [negb].
    + rewrite loop_ping, trace_after, audio_of_app. cbn [audio_of flat_map app].
      apply IH.
    + rewrite (loop_request _ _ _ _ _ _ Ht Hp), trace_after.
      change (Input (Some line) :: ?t) with ([Input (Some line)] ++ t).
      rewrite !audio_of_app, request_audio, IH. reflexivity.
Qed.

Lemma request_line_count line st :
  let out := stdout_of (trace_of (request W a lang model line st)) in
  length out = 1%nat \/ (length out = 3%nat /\ hd_error out = Some finished).
Proof.
  cbn zeta. rewrite request_unfold.
  pose proof (try_body_quiet a lang model line
                {| transcription := ""; logprobs := [] |}) as Hq.
  destruct (try_body W a lang model line _) as [[tr st'] [e|u]];
    unfold trace_of in *; cbn [fst] in *; rewrite stdout_of_app, Hq; cbn;
    auto.
Qed.

(** X4. The answer to a line that is not a control token has one line or
    three, and an answer of three lines starts with
    [transcription_finished]; so a session writes at most three lines per
    line it serves. *)
Theorem answers_have_one_or_three_lines :
  (forall line st,
     let out := stdout_of (trace_of (request W a lang model line st)) in
     length out = 1%nat \/
     (length out = 3%nat /\ hd_error out = Some finished)) /\
  (forall stdin st,
     (length (stdout_of (trace_of (loop W a lang model stdin st)))
      <= 3 * length (served stdin))%nat).
Proof.
  split; [apply request_line_count|].
  intros stdin st. rewrite loop_stdout.
  induction (served stdin) as [|line rest IH]; cbn [flat_map length].
  - lia.
  - rewrite length_app.
    assert (length (response a lang model line) <= 3)%nat.
    { unfold response. destruct (String.eqb line ping); [cbn; lia|].
      destruct (request_line_count line (fresh W)) as [H | [H _]];
        cbn zeta in H; rewrite H; lia. }
    lia.
Qed.

End Session.

(** ** Beyond the claims: start-up in all its branches *)

Section StartupCases.

Variable a : argv.

(** Start-up goes one of the seven ways of [starts]. *)
Lemma startup_starts st : starts W a st (startup W a st).
Proof.
  destruct (import_whisperx W) as [e|[]] eqn:Hi.
  { rewrite (startup_import_fails a st e Hi). now constructor. }
  destruct (getGPUs W) as [e|n] eqn:Hg.
  { rewrite (startup_getGPUs_fails a st e Hi Hg). now constructor. }
  destruct n as [|n].
  - rewrite (startup_cpu a st Hi Hg).
    destruct (load_model W _ _ _ _ _ _) eqn:Hl; now constructor.
  - destruct (load_model W (modelName a) "cuda" (deviceNum a) (threads a)
                (compute_type a) (detect (language a))) as [e|m] eqn:H1.
    + rewrite (startup_fallback a st n e Hi Hg H1).
      destruct (load_model W (modelName a) "cpu" _ _ _ _) eqn:H2.
      * now apply starts_fallback_fails with (e := e).
      * now apply starts_fallback with (e := e).
    + rewrite (startup_cuda a st n m Hi Hg H1). now constructor.
Qed.

(** A run is start-up and then, if there is a model, the loop. *)
Lemma run_of_startup stdin :
  run W a stdin =
    match startup W a (fresh W) with
    | (tr, st, inl e) => (tr, inl e)
    | (tr, st, inr (l, m)) =>
        (tr ++ trace_of (loop W a l m stdin st),
         outcome_of (loop W a l m stdin st))
    end.
Proof.
  unfold run.
  destruct (startup W a (fresh W)) as [[tr st] [e|[l m]]] eqn:Es.
  - now rewrite (main_startup_fails _ _ _ _ _ _ Es).
  - rewrite (main_after_startup _ stdin _ _ _ _ _ Es).
    destruct (loop W a l m stdin st) as [[tr' st'] r]. reflexivity.
Qed.

End StartupCases.

(** *** What the loop does, and nothing else *)

Section LoopEvents.

Variables (a : argv) (lang : option string) (model : Model W).
Variable P : event -> Prop.
Hypothesis P_input : forall l, P (Input l).
Hypothesis P_stdout : forall s, P (Stdout s).
Hypothesis P_audio : forall f, P (LoadAudio f).
Hypothesis P_transcribe : P (Transcribe (batch_size a) lang).

Lemma request_events line st :
  Forall P (trace_of (request W a lang model line st)).
Proof.
  rewrite request_unfold.
  pose proof (try_body_trace a lang model line
                {| transcription := ""; logprobs := [] |}) as Ht.
  destruct (try_body W a lang model line _) as [[tr st'] [e|u]];
    unfold trace_of in *; cbn [fst] in *;
    destruct Ht as [-> | ->]; repeat constructor; auto.
Qed.

Lemma loop_events stdin : forall st,
  Forall P (trace_of (loop W a lang model stdin st)).
Proof.
  induction stdin as [|line rest IH]; intros st.
  - repeat constructor. apply P_input.
  - destruct (String.eqb_spec line terminate) as [->|Ht].
    { repeat constructor. apply P_input. }
    destruct (String.eqb_spec line ping) as [->|Hp].
    + rewrite loop_ping, trace_after. repeat constructor; auto.
    + rewrite (loop_request _ _ _ _ _ _ Ht Hp), trace_after.
      constructor; [apply P_input|].
      apply Forall_app. split; [apply request_events | apply IH].
Qed.

End LoopEvents.

Lemma stderr_of_nil tr :
  Forall (fun ev => match ev with Stderr _ => False | _ => True end) tr ->
  stderr_of tr = [].
Proof.
  induction 1 as [|ev tr Hev _ IH]; [reflexivity|].
  destruct ev; cbn; try exact IH. contradiction.
Qed.

Lemma loop_stderr a lang model stdin st :
  stderr_of (trace_of (loop W a lang model stdin st)) = [].
Proof.
  apply stderr_of_nil. apply loop_events; intros; exact I.
Qed.

(** ** Beyond the claims: the whole run *)

(** X1. How the process ends.  If start-up raises, that exception ends the
    run.  Otherwise the run returns normally exactly when [terminate] is
    among the input lines, and ends with [EOFError] when it is not: no
    failure of a request ever ends the process. *)
Theorem run_outcome a stdin :
  snd (run W a stdin) =
    match outcome_of (startup W a (fresh W)) with
    | inl e => inl e
    | inr _ => if terminated stdin then inr tt else inl EOFError
    end.
Proof.
  rewrite run_of_startup.
  destruct (startup W a (fresh W)) as [[tr st] [e|[l m]]]; cbn [snd outcome_of].
  - reflexivity.
  - apply loop_outcome.
Qed.

(** X5. The model is loaded during start-up only, at most twice in a run,
    and a second load is always on [cpu]. *)
Theorem model_is_loaded_at_most_twice a stdin :
  loads_of (fst (run W a stdin)) =
    loads_of (trace_of (startup W a (fresh W))) /\
  (length (loads_of (fst (run W a stdin))) <= 2)%nat /\
  forall ev,
    nth_error (loads_of (fst (run W a stdin))) 1 = Some ev ->
    exists idx precision,
      ev = LoadModel (modelName a) "cpu" idx (threads a) precision
                     (detect (language a)).
Proof.
  assert (Hrun : loads_of (fst (run W a stdin)) =
                 loads_of (trace_of (startup W a (fresh W)))).
  { rewrite run_of_startup.
    destruct (startup W a (fresh W)) as [[tr st] [e|[l m]]]; cbn [fst trace_of].
    - reflexivity.
    - now rewrite loads_of_app, loop_loads, app_nil_r. }
  rewrite Hrun. split; [reflexivity|].
  pose proof (startup_starts a (fresh W)) as Hs.
  remember (startup W a (fresh W)) as r eqn:Er. clear Er Hrun.
  destruct Hs; cbn; (split; [lia|]); intros ev Hev;
    try discriminate.
  - inversion Hev; subst. eauto.
  - inversion Hev; subst. eauto.
Qed.

(** X6. The script writes to the diagnostic channel once or never: the
    notice of line 45, exactly in the runs that load the model a second
    time. *)
Theorem notice_exactly_on_fallback a stdin :
  stderr_of (fst (run W a stdin)) =
    if Nat.eqb (length (loads_of (fst (run W a stdin)))) 2
    then [fallback_notice] else [].
Proof.
  rewrite run_of_startup.
  pose proof (startup_starts a (fresh W)) as Hs.
  remember (startup W a (fresh W)) as r eqn:Er. clear Er.
  destruct Hs; cbn [fst];
    try rewrite stderr_of_app, loads_of_app, loop_loads, loop_stderr;
    reflexivity.
Qed.


Lemma digits_numeric (d : Decimal.uint) :
  numeric (NilEmpty.string_of_uint d) = true.
Proof.
  induction d; simpl; auto.
Qed.

Lemma str_int_numeric (n : Z) : numeric (str_int n) = true.
Proof.
  unfold str_int, NilZero.string_of_int, NilZero.string_of_uint.
  destruct (Z.to_int n) as [d|d]; destruct d; simpl;
    auto using digits_numeric.
Qed.

Lemma str_int_not_model_loaded (n : Z) : str_int n <> model_loaded.
Proof.
  intros H. pose proof (str_int_numeric n) as Hn. rewrite H in Hn.
  discriminate.
Qed.

(** X8. When start-up raises, the run is over at once: no input is read,
    at most two lines have gone to the protocol channel, and
    [model_loaded] is not among them. *)
Theorem failed_startup_never_announces_model a stdin e :
  outcome_of (startup W a (fresh W)) = inl e ->
  run W a stdin = (trace_of (startup W a (fresh W)), inl e) /\
  inputs_of (fst (run W a stdin)) = [] /\
  (length (stdout_of (fst (run W a stdin))) <= 2)%nat /\
  ~ In model_loaded (stdout_of (fst (run W a stdin))).
Proof.
  intros He. rewrite run_of_startup.
  pose proof (startup_starts a (fresh W)) as Hs.
  remember (startup W a (fresh W)) as r eqn:Er. clear Er.
  destruct Hs; cbn in He; try discriminate;
    inversion He; subst; cbn;
    (split; [reflexivity|]); (split; [reflexivity|]); (split; [lia|]);
    intros Hin;
    repeat (destruct Hin as [Hin|Hin];
            [ try discriminate;
              try (now apply str_int_not_model_loaded in Hin)
            | ]);
    exact Hin.
Qed.

(** X9. Without an accelerator a failed load is final: the exception of
    that one load ends the run, there is no second load and no notice, and
    the protocol channel has [library_loaded] and the count [0] only. *)
Theorem no_retry_without_accelerator a stdin e :
  import_whisperx W = inr tt ->
  getGPUs W = inr 0%nat ->
  load_model W (modelName a) "cpu" 0 (threads a) (compute_type a)
             (detect (language a)) = inl e ->
  run W a stdin =
    ([Stdout library_loaded; Stdout "0";
      LoadModel (modelName a) "cpu" 0 (threads a) (compute_type a)
                (detect (language a))],
     inl e).
Proof.
  intros Hi Hg Hl. rewrite run_of_startup, (startup_cpu a _ Hi Hg), Hl.
  reflexivity.
Qed.

(** X10. When the load on the accelerator and the load on the CPU both fail,
    the run ends with the exception of the second load (the first one is
    dropped), after the notice on the diagnostic channel and with
    [library_loaded] and the count on the protocol channel only. *)
Theorem failed_fallback_raises_second_error a stdin n e e' :
  import_whisperx W = inr tt ->
  getGPUs W = inr n ->
  (0 < n)%nat ->
  load_model W (modelName a) "cuda" (deviceNum a) (threads a)
             (compute_type a) (detect (language a)) = inl e ->
  load_model W (modelName a) "cpu" (deviceNum a) (threads a)
             (cpu_precision (compute_type a)) (detect (language a))
    = inl e' ->
  snd (run W a stdin) = inl e' /\
  stdout_of (fst (run W a stdin)) = [library_loaded; str_int (Z.of_nat n)] /\
  stderr_of (fst (run W a stdin)) = [fallback_notice] /\
  inputs_of (fst (run W a stdin)) = [].
Proof.
  intros Hi Hg Hn H1 H2. destruct n as [|n]; [lia|].
  rewrite run_of_startup, (startup_fallback a _ n e Hi Hg H1), H2.
  repeat split.
Qed.


(** ** Beyond the claims: results that lack a key *)

Lemma for_segments_raises segs : forall st,
  forallb has_text segs = false ->
  outcome_of (for_segments W segs st) = inl (KeyError "text").
Proof.
  induction segs as [|seg segs IH]; intros st H; [discriminate|].
  cbn [for_segments]. cbn in H.
  destruct (text seg) as [t|] eqn:Et.
  - rewrite (bind_after _ _ _ _ _ _ (segment_body_ok _ _ st Et)), after_nil.
    apply IH. unfold has_text in H. now rewrite Et in H.
  - now rewrite (bind_raises _ _ _ _ _ _ (segment_body_no_text _ st Et)).
Qed.

(** X12. When the model's result has no ['segments'], the request is
    answered with the one line [KeyError('segments')]. *)
Theorem result_without_segments a lang model line st audio res :
  load_audio W line = inr audio ->
  transcribe W model audio (batch_size a) lang = inr res ->
  segments res = None ->
  request W a lang model line st =
    ([LoadAudio line; Transcribe (batch_size a) lang;
      Stdout "KeyError('segments')"],
     {| transcription := ""; logprobs := [] |}, inr tt).
Proof.
  intros H1 H2 H3. rewrite request_unfold.
  unfold try_body, call, bind, emit, lift, subscript.
  rewrite H1. cbn. rewrite H2. cbn. rewrite H3. reflexivity.
Qed.

(** X13. When some segment of the result has no ['text'], the request is
    answered with the one line [KeyError('text')], whatever the other
    segments hold: none of the text collected before that segment is
    written. *)
Theorem segment_without_text a lang model line st audio res segs :
  load_audio W line = inr audio ->
  transcribe W model audio (batch_size a) lang = inr res ->
  segments res = Some segs ->
  forallb has_text segs = false ->
  stdout_of (trace_of (request W a lang model line st)) = ["KeyError('text')"]
  /\ outcome_of (request W a lang model line st) = inr tt.
Proof.
  intros H1 H2 H3 Ht. split; [|apply request_returns].
  rewrite request_unfold, (try_body_segments _ _ _ _ _ _ _ _ H1 H2 H3).
  pose proof (for_segments_raises segs
                {| transcription := ""; logprobs := [] |} Ht) as Hr.
  pose proof (proj1 (for_segments_quiet segs
                {| transcription := ""; logprobs := [] |})) as Hq.
  destruct (for_segments W segs _) as [[tr st'] r].
  cbn in Hr, Hq. subst r tr. reflexivity.
Qed.

End WorkerFacts.

(** ** The script at work in [demo] *)

Example session :
  stdout_of (fst (run (demo 2) demo_argv
                      ["ping"; "speech.wav"; "missing.wav"; "music.wav";
                       "terminate_process"; "ping"])) =
    ["library_loaded"; "2"; "model_loaded"; "cpu";
     "ping";
     "transcription_finished"; "33/40"; " hello world!";
     "RuntimeError('Failed to load audio: missing.wav')";
     "transcription_finished"; "0"; " la la"].
Proof. vm_compute. reflexivity. Qed.

(** The locals do outlive a request: here a request fails half way through
    its segments and leaves its partial text and score behind. *)
Example leftovers :
  locals_of (request (demo 0) demo_argv None "medium" "broken.wav"
                     (fresh (demo 0))) =
    Build_locals (demo 0) "partial" [(-1 # 2)%Q].
Proof. reflexivity. Qed.

Example after_leftovers :
  stdout_of (fst (run (demo 0) demo_argv ["broken.wav"; "music.wav"])) =
    ["library_loaded"; "0"; "model_loaded"; "cpu";
     "KeyError('text')";
     "transcription_finished"; "0"; " la la"].
Proof. vm_compute. reflexivity. Qed.

Lemma demo_np_str_one_line gpus (x : Float (demo gpus)) :
  one_line (np_str (demo gpus) x) = true.
Proof.
  cbn. rewrite one_line_append, str_int_one_line. cbn.
  apply str_int_one_line.
Qed.

(** ** The claims at work in [demo] *)

(** C1.  Two accelerators, device index 1 on the command line, and the load
    on the accelerator fails: the second load is on [cpu], and its device
    index is still 1.  (Without accelerators the same command line loads on
    [cpu] with index 0.) *)
Theorem fallback_keeps_device_index :
  loads_of (fst (run (demo 2) demo_argv [])) =
    [LoadModel "medium" "cuda" 1 4 "float16" None;
     LoadModel "medium" "cpu" 1 4 "float32" None] /\
  loads_of (fst (run (demo 0) demo_argv [])) =
    [LoadModel "medium" "cpu" 0 4 "float16" None].
Proof. split; reflexivity. Qed.

(** C2, as stated, fails: at the end of the input [main] ends with an
    uncaught [EOFError], on [terminate] it returns. *)
Lemma end_of_input_is_not_terminate :
  snd (run (demo 0) demo_argv []) <> inr tt /\
  snd (run (demo 0) demo_argv [terminate]) = inr tt /\
  snd (run (demo 0) demo_argv []) = inl EOFError.
Proof. repeat split. discriminate. Qed.

Lemma fallback_reports_cpu_witness :
  (0 < 2)%nat /\
  compute_type demo_argv = "float16" /\
  stdout_of (trace_of (startup (demo 2) demo_argv (fresh (demo 2)))) =
    ["library_loaded"; "2"; "model_loaded"; "cpu"] /\
  loads_of (trace_of (startup (demo 2) demo_argv (fresh (demo 2)))) =
    [LoadModel "medium" "cuda" 1 4 "float16" None;
     LoadModel "medium" "cpu" 1 4 "float32" None].
Proof.
  split; [lia|]. split; [reflexivity|].
  pose proof (fallback_reports_cpu (demo 2) demo_argv (fresh (demo 2)) 2
                demo_cuda_error "medium"
                eq_refl eq_refl ltac:(lia) eq_refl eq_refl) as (H1 & H2 & _).
  split; [exact H1 | exact H2].
Defined.

Lemma score_is_mean_of_exponentials_witness :
  stdout_of (trace_of (request (demo 0) demo_argv None "medium" "speech.wav"
                               (fresh (demo 0)))) =
    ["transcription_finished"; "33/40"; " hello world!"].
Proof.
  exact (proj1 (score_is_mean_of_exponentials (demo 0) demo_argv None "medium"
                  "speech.wav" (fresh (demo 0)) "speech.wav"
                  {| segments := demo_segments "speech.wav" |}
                  _ eq_refl eq_refl eq_refl eq_refl)).
Defined.

Lemma failed_request_answers_one_line_witness :
  "missing.wav" <> terminate /\
  "missing.wav" <> ping /\
  load_audio (demo 0) "missing.wav" = inl demo_audio_error /\
  exists tr st',
    request (demo 0) demo_argv None "medium" "missing.wav" (fresh (demo 0))
      = (tr, st', inr tt) /\
    stdout_of tr = ["RuntimeError('Failed to load audio: missing.wav')"] /\
    loop (demo 0) demo_argv None "medium" ["missing.wav"; "ping"]
         (fresh (demo 0)) =
      after (Input (Some "missing.wav") :: tr)
            (loop (demo 0) demo_argv None "medium" ["ping"] st').
Proof.
  split; [discriminate|]. split; [discriminate|]. split; [reflexivity|].
  destruct (failed_request_answers_one_line (demo 0) demo_argv None "medium"
              "missing.wav" ["ping"] (fresh (demo 0)) demo_audio_error
              ltac:(discriminate) ltac:(discriminate) (or_introl eq_refl))
    as (tr & st' & Hr & Hout & _ & _ & Hl).
  exists tr, st'. repeat split; assumption.
Defined.

Lemma dispatch_on_line_witness :
  loop (demo 0) demo_argv None "medium" [terminate; "ping"] (fresh (demo 0)) =
    ([Input (Some terminate)], fresh (demo 0), inr tt) /\
  loop (demo 0) demo_argv None "medium" [ping; "x"] (fresh (demo 0)) =
    after [Input (Some ping); Stdout ping]
          (loop (demo 0) demo_argv None "medium" ["x"] (fresh (demo 0))) /\
  exists tr st',
    request (demo 0) demo_argv None "medium" "noise.wav" (fresh (demo 0))
      = (tr, st', inr tt) /\
    loop (demo 0) demo_argv None "medium" ["noise.wav"; "ping"]
         (fresh (demo 0)) =
      after (Input (Some "noise.wav") :: tr)
            (loop (demo 0) demo_argv None "medium" ["ping"] st').
Proof.
  split; [|split].
  - apply (proj1 (dispatch_on_line (demo 0) demo_argv None "medium"
                    terminate ["ping"] (fresh (demo 0)))).
    reflexivity.
  - apply (proj1 (proj2 (dispatch_on_line (demo 0) demo_argv None "medium"
                           ping ["x"] (fresh (demo 0))))).
    reflexivity.
  - apply (proj2 (proj2 (dispatch_on_line (demo 0) demo_argv None "medium"
                           "noise.wav" ["ping"] (fresh (demo 0)))));
      discriminate.
Defined.

Lemma protocol_lines_have_no_line_break_witness :
  Forall (fun l => one_line l = true)
         (stdout_of (fst (run (demo 2) demo_argv
                              ["ping"; "speech.wav"; "missing.wav"]))).
Proof.
  apply (protocol_lines_have_no_line_break (demo 2) demo_argv
           ["ping"; "speech.wav"; "missing.wav"]).
  intros x. apply (demo_np_str_one_line 2).
Defined.

Lemma no_accelerator_loads_cpu_0_witness :
  getGPUs (demo 0) = inr 0%nat /\
  deviceNum demo_argv = 1%Z /\
  loads_of (fst (run (demo 0) demo_argv ["ping"])) =
    [LoadModel "medium" "cpu" 0 4 "float16" None].
Proof.
  split; [reflexivity|]. split; [reflexivity|].
  apply (no_accelerator_loads_cpu_0 (demo 0) demo_argv ["ping"]);
    reflexivity.
Defined.


(** ** Beyond the claims: cleaning a line *)

(** X14. Cleaning keeps the length of a string and every character of it
    but the newlines and carriage returns, each of which becomes one
    space. *)
Theorem sanitize_touches_line_breaks_only (s : string) :
  String.length (sanitize s) = String.length s /\
  forall i,
    String.get i (sanitize s) =
      option_map
        (fun c => if Ascii.eqb c LF || Ascii.eqb c CR then SP else c)
        (String.get i s).
Proof.
  unfold sanitize. split.
  - induction s as [|c s IH]; simpl; [reflexivity | now rewrite IH].
  - induction s as [|c s IH]; intros i; [reflexivity|].
    destruct i as [|i]; simpl.
    + destruct (Ascii.eqb c LF) eqn:E1; [reflexivity|].
      now destruct (Ascii.eqb c CR).
    + apply IH.
Qed.

(** X15. Cleaning leaves a string as it is exactly when the string has no
    line break; so cleaning twice is cleaning once. *)
Theorem sanitize_fixes_single_lines (s : string) :
  (sanitize s = s <-> one_line s = true) /\
  sanitize (sanitize s) = sanitize s.
Proof.
  assert (Hid : forall t, one_line t = true -> sanitize t = t).
  { unfold sanitize. induction t as [|c t IH]; simpl; [reflexivity|].
    intros H. apply andb_prop in H as [H Ht]. apply andb_prop in H as [H1 H2].
    apply negb_true_iff in H1, H2. rewrite H1, H2, IH; auto. }
  split; [split|].
  - intros H. rewrite <- H. apply sanitize_one_line.
  - apply Hid.
  - apply Hid, sanitize_one_line.
Qed.

(** X16. Cleaning the joined text is joining the cleaned texts: the
    transcription line is the cleaned segment texts, one after the other. *)
Theorem sanitize_append (s t : string) :
  sanitize (String.append s t) = String.append (sanitize s) (sanitize t).
Proof.
  unfold sanitize.
  induction s as [|c s IH]; simpl; [reflexivity | now rewrite IH].
Qed.

(** ** Beyond the claims: the command line *)

(** X17. The command line is accepted exactly when it has the script's name
    and at least six arguments of which the second, the third and the
    sixth are integers for [int]; the record then holds the six in order,
    and whatever follows them is ignored. *)
Theorem parse_argv_accepts (int : string -> outcome Z) (l : list string)
    (a : argv) :
  parse_argv int l = inr a <->
  exists prog d t b rest,
    l = prog :: modelName a :: d :: t :: language a :: compute_type a
             :: b :: rest /\
    int d = inr (deviceNum a) /\
    int t = inr (threads a) /\
    int b = inr (batch_size a).
Proof.
  split.
  - unfold parse_argv, item, and_then.
    destruct l as [|prog [|m [|d [|t [|lg [|c [|b rest]]]]]]]; cbn;
      try discriminate;
      try (destruct (int d); discriminate);
      try (destruct (int d); [discriminate|]; destruct (int t); discriminate).
    destruct (int d) as [e|dn] eqn:Ed; [discriminate|].
    destruct (int t) as [e|tn] eqn:Et; [discriminate|].
    destruct (int b) as [e|bn] eqn:Eb; [discriminate|].
    intros H. inversion H; subst. cbn.
    exists prog, d, t, b, rest. auto.
  - intros (prog & d & t & b & rest & -> & Hd & Ht & Hb).
    unfold parse_argv, item, and_then. cbn. rewrite Hd, Ht, Hb.
    destruct a. reflexivity.
Qed.

(** X18. With fewer than six arguments the script raises before it does
    anything: no line is written, no library is called, no input read. *)
Theorem short_command_line_raises (int : string -> outcome Z) (W : World)
    (sys_argv stdin : list string) :
  (length sys_argv < 7)%nat ->
  exists e, script int W sys_argv stdin = ([], inl e).
Proof.
  intros H. unfold script.
  destruct (parse_argv int sys_argv) as [e|a] eqn:E; [eauto|].
  apply parse_argv_accepts in E as (prog & d & t & b & rest & -> & _).
  cbn in H. lia.
Qed.

(** ** The further properties at work in [demo] and [unloadable] *)

Example script_session :
  script demo_int (demo 2) demo_sys_argv ["ping"; ""; "terminate_process"] =
    ([Stdout "library_loaded"; Stdout "2";
      LoadModel "medium" "cuda" 1 4 "float16" None;
      Stderr fallback_notice;
      LoadModel "medium" "cpu" 1 4 "float32" None;
      Stdout "model_loaded"; Stdout "cpu";
      Input (Some "ping"); Stdout "ping";
      Input (Some ""); LoadAudio ""; Transcribe 16 None;
      Stdout "transcription_finished"; Stdout "0"; Stdout "";
      Input (Some "terminate_process")],
     inr tt).
Proof. vm_compute. reflexivity. Qed.

Lemma model_is_loaded_at_most_twice_witness :
  nth_error (loads_of (fst (run (demo 2) demo_argv ["ping"]))) 1 =
    Some (LoadModel "medium" "cpu" 1 4 "float32" None) /\
  exists idx precision,
    LoadModel "medium" "cpu" 1 4 "float32" None =
    LoadModel (modelName demo_argv) "cpu" idx (threads demo_argv) precision
              (detect (language demo_argv)).
Proof.
  split; [reflexivity|].
  apply (proj2 (proj2 (model_is_loaded_at_most_twice (demo 2) demo_argv
                         ["ping"]))).
  reflexivity.
Defined.

Lemma failed_startup_never_announces_model_witness :
  outcome_of (startup (unloadable 2) demo_argv (fresh (unloadable 2)))
    = inl demo_cpu_error /\
  stdout_of (fst (run (unloadable 2) demo_argv ["ping"]))
    = ["library_loaded"; "2"] /\
  ~ In model_loaded (stdout_of (fst (run (unloadable 2) demo_argv ["ping"]))).
Proof.
  split; [reflexivity|]. split; [reflexivity|].
  apply (failed_startup_never_announces_model (unloadable 2) demo_argv
           ["ping"] demo_cpu_error).
  reflexivity.
Defined.

Lemma no_retry_without_accelerator_witness :
  getGPUs (unloadable 0) = inr 0%nat /\
  run (unloadable 0) demo_argv ["ping"] =
    ([Stdout library_loaded; Stdout "0";
      LoadModel "medium" "cpu" 0 4 "float16" None],
     inl demo_cpu_error).
Proof.
  split; [reflexivity|].
  apply (no_retry_without_accelerator (unloadable 0) demo_argv ["ping"]
           demo_cpu_error); reflexivity.
Defined.

Lemma failed_fallback_raises_second_error_witness :
  (0 < 2)%nat /\
  snd (run (unloadable 2) demo_argv ["ping"]) = inl demo_cpu_error /\
  stderr_of (fst (run (unloadable 2) demo_argv ["ping"])) = [fallback_notice].
Proof.
  split; [lia|].
  pose proof (failed_fallback_raises_second_error (unloadable 2) demo_argv
                ["ping"] 2 demo_cuda_error demo_cpu_error
                eq_refl eq_refl ltac:(lia) eq_refl eq_refl)
    as (H1 & _ & H3 & _).
  split; [exact H1 | exact H3].
Defined.


Lemma result_without_segments_witness :
  segments {| segments := demo_segments "odd.wav" |} = None /\
  stdout_of (trace_of (request (demo 0) demo_argv None "medium" "odd.wav"
                               (fresh (demo 0)))) =
    ["KeyError('segments')"].
Proof.
  split; [reflexivity|].
  rewrite (result_without_segments (demo 0) demo_argv None "medium" "odd.wav"
             (fresh (demo 0)) "odd.wav"
             {| segments := demo_segments "odd.wav" |}
             eq_refl eq_refl eq_refl).
  reflexivity.
Defined.

Lemma segment_without_text_witness :
  forallb (@has_text (demo 0))
    [ {| text := Some "partial"; avg_logprob := Some (-1 # 2)%Q |};
      {| text := None; avg_logprob := None |} ] = false /\
  stdout_of (trace_of (request (demo 0) demo_argv None "medium" "broken.wav"
                               (fresh (demo 0)))) =
    ["KeyError('text')"].
Proof.
  split; [reflexivity|].
  apply (proj1 (segment_without_text (demo 0) demo_argv None "medium"
                  "broken.wav" (fresh (demo 0)) "broken.wav"
                  {| segments := demo_segments "broken.wav" |}
                  _ eq_refl eq_refl eq_refl eq_refl)).
Defined.

Lemma sanitize_fixes_single_lines_witness :
  one_line "transcription_finished" = true /\
  sanitize "transcription_finished" = "transcription_finished".
Proof.
  split; [reflexivity|].
  apply (proj2 (proj1 (sanitize_fixes_single_lines "transcription_finished"))).
  reflexivity.
Defined.

Lemma parse_argv_accepts_witness :
  parse_argv demo_int (demo_sys_argv ++ ["--verbose"]) = inr demo_argv.
Proof.
  apply (proj2 (parse_argv_accepts demo_int (demo_sys_argv ++ ["--verbose"])
                  demo_argv)).
  exists "WhisperProcess.py", "1", "4", "16", ["--verbose"].
  repeat split.
Defined.

Lemma short_command_line_raises_witness :
  (length ["WhisperProcess.py"; "medium"; "one"] < 7)%nat /\
  exists e,
    script demo_int (demo 2) ["WhisperProcess.py"; "medium"; "one"] ["ping"]
      = ([], inl e).
Proof.
  split; [cbn; lia|].
  apply (short_command_line_raises demo_int (demo 2)
           ["WhisperProcess.py"; "medium"; "one"] ["ping"]).
  cbn. lia.
Defined.
